(** * Notes API (backend/main.py): token authentication and optimistic
      concurrency control on note updates

    The route handlers of [backend/main.py] are embedded as functions from a
    database state to a response and a new database state.

    - The SQLite file [notes.db] is the record [database]: the two tables
      are finite maps keyed by rowid ([id INTEGER PRIMARY KEY] is the rowid),
      together with the [sqlite_sequence] counters kept for AUTOINCREMENT.
      The keys are unbounded integers; a note id that the client sends is
      bound to a statement only when it fits 64 bits ([binds]).
    - [CURRENT_TIMESTAMP] is an input of every handler that writes: the text
      ['YYYY-MM-DD HH:MM:SS'] the engine reads from its clock when the
      statement runs.  [datetime.utcnow()] and the clock the [jwt] package
      reads are inputs of the token functions, in microseconds since the
      epoch (the resolution of a [datetime]).
    - [raise HTTPException(status_code, detail)] is the constructor
      [HTTPException] of [result].
    - The primitives of the [bcrypt] package ([bcrypt.hashpw],
      [bcrypt.checkpw]) are variables of the section; what the [jwt]
      package and the interpreter fix (the HMAC of HS256, [int] on a text,
      the checks that came with later releases of the package) is the
      record [PyJWT]. *)

From stdpp Require Import gmap strings list fin_maps sorting pretty.
From Stdlib Require Import ZArith String.

Local Open Scope string_scope.
Local Open Scope Z_scope.

(** ** Configuration *)

Definition SECRET_KEY : string := "your-secret-key-change-in-production".
Definition ALGORITHM : string := "HS256".
Definition ACCESS_TOKEN_EXPIRE_MINUTES : Z := 30.

(** ** Pydantic models *)

Module UserCreate.
Record t : Type := Build { username : string; password : string }.
End UserCreate.

Module UserLogin.
Record t : Type := Build { username : string; password : string }.
End UserLogin.

Module NoteCreate.
Record t : Type := Build { title : string; content : string }.
End NoteCreate.

Module NoteUpdate.
Record t : Type :=
  Build { title : string; content : string; updated_at : string }.
End NoteUpdate.

Module Note.
Record t : Type :=
  Build { id : Z; title : string; content : string; owner_id : Z;
          created_at : string; updated_at : string }.
End Note.

(** The dictionary [{"title": ..., "content": ...}] of the conflict body. *)
Module Changes.
Record t : Type := Build { title : string; content : string }.
End Changes.

Module ConflictError.
Record t : Type :=
  Build { error : string; message : string; current_note : Note.t;
          your_changes : Changes.t }.
End ConflictError.

(** ** Responses *)

Inductive detail : Type :=
| Msg (s : string)
| ConflictData (c : ConflictError.t).

Inductive result (A : Type) : Type :=
| Return (a : A)
| HTTPException (status_code : Z) (d : detail).

Arguments Return {A} a.
Arguments HTTPException {A} status_code d.

(** What a handler's uncaught exception is answered with. *)
Definition internal_error {A} : result A :=
  HTTPException 500 (Msg "Internal Server Error").

Definition is_success {A} (r : result A) : bool :=
  match r with Return _ => true | HTTPException _ _ => false end.

(** ** The database *)

(** A row of [users]; the key of the table is the column [id]. *)
Record users_row : Type :=
  UsersRow { u_username : string; u_password_hash : string;
             u_created_at : string }.

(** A row of [notes]; the key of the table is the column [id]. *)
Record notes_row : Type :=
  NotesRow { r_title : string; r_content : string; r_owner_id : Z;
             r_created_at : string; r_updated_at : string }.

Record database : Type :=
  Database { users : gmap Z users_row; notes : gmap Z notes_row;
             users_seq : Z; notes_seq : Z }.

(** [init_db] on a fresh file: both tables exist and are empty. *)
Definition init_db : database :=
  {| users := ∅; notes := ∅; users_seq := 0; notes_seq := 0 |}.

(** The largest rowid of a table (0 when it is empty). *)
Definition max_rowid {A} (t : gmap Z A) : Z :=
  foldr Z.max 0 (map_to_list t).*1.

(** AUTOINCREMENT: one more than the largest rowid the table ever held. *)
Definition next_rowid {A} (seq : Z) (t : gmap Z A) : Z :=
  Z.max seq (max_rowid t) + 1.

(** The model [Note] built from a fetched row and its rowid. *)
Definition Note_of_row (rowid : Z) (r : notes_row) : Note.t :=
  {| Note.id := rowid; Note.title := r_title r; Note.content := r_content r;
     Note.owner_id := r_owner_id r; Note.created_at := r_created_at r;
     Note.updated_at := r_updated_at r |}.

(** [SELECT ... FROM users WHERE username = ?], [fetchone()].  The column
    has the default BINARY collation: the comparison is exact. *)
Definition select_user_by_username (name : string) (t : gmap Z users_row)
  : option (Z * users_row) :=
  head (filter (λ kr : Z * users_row, u_username kr.2 = name) (map_to_list t)).

(** [INSERT INTO users (username, password_hash) VALUES (?, ?)]: [None] is
    the IntegrityError of the UNIQUE constraint on [username]. *)
Definition insert_user (name hashed_pw now : string) (db : database)
  : option (Z * database) :=
  match select_user_by_username name (users db) with
  | Some _ => None
  | None =>
      let rowid := next_rowid (users_seq db) (users db) in
      Some (rowid,
            {| users := <[rowid := UsersRow name hashed_pw now]> (users db);
               notes := notes db;
               users_seq := rowid;
               notes_seq := notes_seq db |})
  end.

(** [INSERT INTO notes (title, content, owner_id) VALUES (?, ?, ?)]: both
    timestamps take their default, CURRENT_TIMESTAMP. *)
Definition insert_note (title content : string) (owner : Z) (now : string)
    (db : database) : Z * database :=
  let rowid := next_rowid (notes_seq db) (notes db) in
  (rowid,
   {| users := users db;
      notes := <[rowid := NotesRow title content owner now now]> (notes db);
      users_seq := users_seq db;
      notes_seq := rowid |}).

(** The values of SQLite's INTEGER. *)
Definition fits_int64 (z : Z) : bool := (- 2 ^ 63 <=? z) && (z <? 2 ^ 63).

(** The binding of the note id to a parameter of a statement: the [sqlite3]
    module raises OverflowError for a Python int that does not fit a 64-bit
    INTEGER.  The rowids of a table fit; the keys of the tables of this
    model stand for them, so an id that is a key is bound. *)
Definition binds (note_id : Z) (t : gmap Z notes_row) : bool :=
  fits_int64 note_id || bool_decide (is_Some (t !! note_id)).

(** [SELECT * FROM notes WHERE id = ? AND owner_id = ?], [fetchone()]. *)
Definition select_note (note_id current_user : Z) (t : gmap Z notes_row)
  : option notes_row :=
  match t !! note_id with
  | Some r => if decide (r_owner_id r = current_user) then Some r else None
  | None => None
  end.

(** The trigger [update_notes_timestamp], run after the update of the row
    [new_id]: [UPDATE notes SET updated_at = CURRENT_TIMESTAMP WHERE id =
    NEW.id]. *)
Definition update_notes_timestamp (now : string) (new_id : Z)
    (t : gmap Z notes_row) : gmap Z notes_row :=
  alter (λ r, NotesRow (r_title r) (r_content r) (r_owner_id r)
                       (r_created_at r) now) new_id t.

(** [UPDATE notes SET title = ?, content = ? WHERE id = ? AND owner_id = ?],
    with its trigger. *)
Definition sql_update_note (title content : string) (note_id current_user : Z)
    (now : string) (t : gmap Z notes_row) : gmap Z notes_row :=
  match select_note note_id current_user t with
  | Some r =>
      update_notes_timestamp now note_id
        (<[note_id := NotesRow title content (r_owner_id r) (r_created_at r)
                               (r_updated_at r)]> t)
  | None => t
  end.

(** [DELETE FROM notes WHERE id = ? AND owner_id = ?] *)
Definition sql_delete_note (note_id current_user : Z) (t : gmap Z notes_row)
  : gmap Z notes_row :=
  match select_note note_id current_user t with
  | Some _ => delete note_id t
  | None => t
  end.

Definition set_notes (t : gmap Z notes_row) (db : database) : database :=
  {| users := users db; notes := t;
     users_seq := users_seq db; notes_seq := notes_seq db |}.

(** The order of [ORDER BY updated_at DESC] on the rows fetched. *)
Definition updated_at_desc (a b : Note.t) : Prop :=
  String.leb (Note.updated_at b) (Note.updated_at a) = true.

Global Instance updated_at_desc_dec a b : Decision (updated_at_desc a b).
Proof. unfold updated_at_desc. apply _. Defined.

(** [SELECT * FROM notes WHERE owner_id = ? ORDER BY updated_at DESC] *)
Definition select_notes_by_owner (current_user : Z) (t : gmap Z notes_row)
  : list Note.t :=
  merge_sort updated_at_desc
    (filter (λ n, Note.owner_id n = current_user)
            ((λ kr : Z * notes_row, Note_of_row kr.1 kr.2) <$> map_to_list t)).

(** ** Tokens *)

(** A float of Python, as [json.loads] makes one of a number written with a
    fraction or an exponent: its exact value [num / den], an infinity, or
    a NaN. *)
Inductive pyfloat : Type :=
| Finite (num : Z) (den : positive)
| Infinity
| NaN.

(** The values a claim of the payload takes. *)
#[warnings="-register-all"]
Inductive json : Type :=
| JNull
| JBool (b : bool)
| JInt (z : Z)
| JFloat (x : pyfloat)
| JStr (s : string)
| JArray (items : list json)
| JObject (members : list (string * json)).

(** A bearer credential.  [Jwt payload signature] is a compact token whose
    header names HS256 and whose payload is a JSON object; [Garbage] is any
    other text (not three segments, not base64url, not a JSON object, another
    algorithm in the header). *)
Inductive token : Type :=
| Garbage (raw : string)
| Jwt (payload : gmap string json) (signature : string).

(** The subclasses of [jwt.PyJWTError] that [jwt.decode] raises here. *)
Inductive PyJWTError : Type :=
| DecodeError
| InvalidSignatureError
| ExpiredSignatureError
| ImmatureSignatureError
| InvalidIssuedAtError
| InvalidAudienceError
| InvalidSubjectError
| InvalidJTIError.

(** What the installed [jwt] package (PyJWT 2) and the interpreter fix:
    the HMAC-SHA256 of the signing input under a key; [int] on a text
    ([None] is ValueError); whether the package refuses an [iat] in the
    future (from its release 2.6 on) and a [sub] or [jti] that is not a
    text (from 2.10 on). *)
Record PyJWT : Type :=
  { HS256 : string → gmap string json → string;
    int_of_str : string → option Z;
    checks_iat_in_future : bool;
    checks_sub_and_jti : bool }.

(** The outcome of [int(v)]: a value, ValueError, or another exception
    (TypeError, OverflowError). *)
Inductive int_result : Type :=
| IntOk (z : Z)
| IntValueError
| IntOtherError.

Definition python_int (jwt : PyJWT) (v : json) : int_result :=
  match v with
  | JNull => IntOtherError
  | JBool b => IntOk (if b then 1 else 0)
  | JInt z => IntOk z
  | JFloat (Finite num den) => IntOk (Z.quot num (Z.pos den))
  | JFloat Infinity => IntOtherError
  | JFloat NaN => IntValueError
  | JStr s =>
      match int_of_str jwt s with
      | Some z => IntOk z
      | None => IntValueError
      end
  | JArray _ | JObject _ => IntOtherError
  end.

(** Truth value of a claim, as [not payload["aud"]] takes it. *)
Definition truthy (v : json) : bool :=
  match v with
  | JNull => false
  | JBool b => b
  | JInt z => negb (z =? 0)
  | JFloat (Finite num _) => negb (num =? 0)
  | JFloat _ => true
  | JStr s => negb (String.eqb s EmptyString)
  | JArray items => negb (bool_decide (items = []))
  | JObject members => negb (bool_decide (members = []))
  end.

(** What a check of a claim comes to: it passes, it raises a PyJWTError,
    or it raises an exception that is not one. *)
Inductive verdict : Type :=
| Pass
| Refuse (e : PyJWTError)
| Crash.

(** [timegm(d.utctimetuple())]: the whole seconds of an instant given in
    microseconds. *)
Definition timegm (t : Z) : Z := t / 1000000.

(** [_validate_iat], [_validate_nbf], [_validate_exp]: [now] is the float
    [datetime.now(tz=timezone.utc).timestamp()], here in microseconds, and
    the leeway is 0. *)
Definition validate_iat (jwt : PyJWT) (now : Z) (payload : gmap string json)
  : verdict :=
  match payload !! "iat" with
  | None => Pass
  | Some v =>
      match python_int jwt v with
      | IntValueError => Refuse InvalidIssuedAtError
      | IntOtherError => Crash
      | IntOk iat =>
          if checks_iat_in_future jwt && (now <? iat * 1000000)
          then Refuse ImmatureSignatureError else Pass
      end
  end.

Definition validate_nbf (jwt : PyJWT) (now : Z) (payload : gmap string json)
  : verdict :=
  match payload !! "nbf" with
  | None => Pass
  | Some v =>
      match python_int jwt v with
      | IntValueError => Refuse DecodeError
      | IntOtherError => Crash
      | IntOk nbf =>
          if now <? nbf * 1000000 then Refuse ImmatureSignatureError else Pass
      end
  end.

Definition validate_exp (jwt : PyJWT) (now : Z) (payload : gmap string json)
  : verdict :=
  match payload !! "exp" with
  | None => Pass
  | Some v =>
      match python_int jwt v with
      | IntValueError => Refuse DecodeError
      | IntOtherError => Crash
      | IntOk exp =>
          if exp * 1000000 <=? now then Refuse ExpiredSignatureError else Pass
      end
  end.

(** [_validate_aud] when [decode] is given no audience. *)
Definition validate_aud (payload : gmap string json) : verdict :=
  match payload !! "aud" with
  | None => Pass
  | Some v => if truthy v then Refuse InvalidAudienceError else Pass
  end.

Definition is_str (v : json) : bool :=
  match v with JStr _ => true | _ => false end.

(** [_validate_sub] and [_validate_jti] *)
Definition validate_sub (jwt : PyJWT) (payload : gmap string json) : verdict :=
  match payload !! "sub" with
  | None => Pass
  | Some v =>
      if checks_sub_and_jti jwt && negb (is_str v)
      then Refuse InvalidSubjectError else Pass
  end.

Definition validate_jti (jwt : PyJWT) (payload : gmap string json) : verdict :=
  match payload !! "jti" with
  | None => Pass
  | Some v =>
      if checks_sub_and_jti jwt && negb (is_str v)
      then Refuse InvalidJTIError else Pass
  end.

(** The checks run in order and the first exception ends the run. *)
Fixpoint first_verdict (checks : list verdict) : verdict :=
  match checks with
  | [] => Pass
  | Pass :: rest => first_verdict rest
  | stop :: _ => stop
  end.

(** The checks of [_validate_claims] with the default options, in its
    order ([iss] is not checked when [decode] is given no issuer). *)
Definition claim_checks (jwt : PyJWT) (now : Z) (payload : gmap string json)
  : list verdict :=
  [ validate_iat jwt now payload; validate_nbf jwt now payload;
    validate_exp jwt now payload; validate_aud payload;
    validate_sub jwt payload; validate_jti jwt payload ].

Definition validate_claims (jwt : PyJWT) (now : Z)
    (payload : gmap string json) : verdict :=
  first_verdict (claim_checks jwt now payload).

(** What [jwt.decode] comes to. *)
Inductive decoded : Type :=
| Decoded (payload : gmap string json)
| Raised (e : PyJWTError)
| Crashed.

Section NotesApp.

Variable jwt : PyJWT.

(** [bcrypt.hashpw(password, salt)] and [bcrypt.checkpw(password, hashed)] *)
Variable bcrypt_hashpw : string → string → string.
Variable bcrypt_checkpw : string → string → bool.

(** [jwt.encode(payload, key, algorithm="HS256")], for a payload whose
    claims are JSON values. *)
Definition jwt_encode (payload : gmap string json) (key : string) : token :=
  Jwt payload (HS256 jwt key payload).

(** [jwt.decode(token, key, algorithms=["HS256"])]: the signature is
    checked first, then the claims. *)
Definition jwt_decode (now : Z) (tok : token) (key : string) : decoded :=
  match tok with
  | Garbage _ => Raised DecodeError
  | Jwt payload signature =>
      if decide (signature = HS256 jwt key payload) then
        match validate_claims jwt now payload with
        | Pass => Decoded payload
        | Refuse e => Raised e
        | Crash => Crashed
        end
      else Raised InvalidSignatureError
  end.

(** [hash_password]; the salt is the value [bcrypt.gensalt()] drew. *)
Definition hash_password (salt password : string) : string :=
  bcrypt_hashpw password salt.

Definition verify_password (password hashed : string) : bool :=
  bcrypt_checkpw password hashed.

(** [utcnow] is [datetime.utcnow()] in microseconds; [jwt.encode] turns the
    datetime of [exp] into its whole seconds. *)
Definition create_access_token (utcnow : Z) (data : gmap string json)
  : token :=
  let expire := utcnow + ACCESS_TOKEN_EXPIRE_MINUTES * 60 * 1000000 in
  let to_encode := <["exp" := JInt (timegm expire)]> data in
  jwt_encode to_encode SECRET_KEY.

(** [now] is the clock [jwt.decode] reads.  An exception that is not a
    PyJWTError is not caught. *)
Definition get_current_user (now : Z) (credentials : token) : result json :=
  match jwt_decode now credentials SECRET_KEY with
  | Decoded payload =>
      match payload !! "user_id" with
      | None | Some JNull => HTTPException 401 (Msg "Invalid token")
      | Some user_id => Return user_id
      end
  | Raised _ => HTTPException 401 (Msg "Invalid token")
  | Crashed => internal_error
  end.





(** ** Auth routes *)

Definition register (salt now : string) (user : UserCreate.t) (db : database)
  : result (Z * string * string) * database :=
  match select_user_by_username (UserCreate.username user) (users db) with
  | Some _ => (HTTPException 400 (Msg "Username already exists"), db)
  | None =>
      let hashed_pw := hash_password salt (UserCreate.password user) in
      match insert_user (UserCreate.username user) hashed_pw now db with
      | Some (user_id, db') =>
          (Return (user_id, UserCreate.username user, "User created"), db')
      | None => (internal_error, db)
      end
  end.

Definition login (utcnow : Z) (user : UserLogin.t) (db : database)
  : result (token * string) * database :=
  match select_user_by_username (UserLogin.username user) (users db) with
  | None => (HTTPException 401 (Msg "Invalid credentials"), db)
  | Some (db_user_id, db_user) =>
      if negb (verify_password (UserLogin.password user)
                               (u_password_hash db_user))
      then (HTTPException 401 (Msg "Invalid credentials"), db)
      else
        let access_token :=
          create_access_token utcnow {[ "user_id" := JInt db_user_id ]} in
        (Return (access_token, "bearer"), db)
  end.

End NotesApp.

(** ** Notes routes *)

(** The response to a fetched row, or to no row ([dict(None)] raises).  An
    exception no handler catches is answered with the status 500. *)
Definition fetched_note (note_id : Z) (t : gmap Z notes_row) : result Note.t :=
  match t !! note_id with
  | Some r => Return (Note_of_row note_id r)
  | None => internal_error
  end.

Definition create_note (now : string) (note : NoteCreate.t) (current_user : Z)
    (db : database) : result Note.t * database :=
  let '(note_id, db') :=
    insert_note (NoteCreate.title note) (NoteCreate.content note)
                current_user now db in
  (fetched_note note_id (notes db'), db').

Definition get_notes (current_user : Z) (db : database)
  : result (list Note.t) * database :=
  (Return (select_notes_by_owner current_user (notes db)), db).

Definition get_note (note_id current_user : Z) (db : database)
  : result Note.t * database :=
  if negb (binds note_id (notes db)) then (internal_error, db) else
  match select_note note_id current_user (notes db) with
  | None => (HTTPException 404 (Msg "Note not found"), db)
  | Some note => (Return (Note_of_row note_id note), db)
  end.

(** The body of the 409 response. *)
Definition conflict_data (current_note : Note.t) (note_update : NoteUpdate.t)
  : detail :=
  ConflictData
    {| ConflictError.error := "conflict";
       ConflictError.message :=
         "Note has been updated by another user. Please resolve conflicts.";
       ConflictError.current_note := current_note;
       ConflictError.your_changes :=
         {| Changes.title := NoteUpdate.title note_update;
            Changes.content := NoteUpdate.content note_update |} |}.

(** The first statement of [update_note] and the comparison of the markers:
    [None] when the handler goes on to write. *)
Definition update_note_check (note_id : Z) (note_update : NoteUpdate.t)
    (current_user : Z) (db : database) : option (result Note.t) :=
  if negb (binds note_id (notes db)) then Some internal_error else
  match select_note note_id current_user (notes db) with
  | None => Some (HTTPException 404 (Msg "Note not found"))
  | Some current_note =>
      let db_updated_at := r_updated_at current_note in
      let client_updated_at := NoteUpdate.updated_at note_update in
      if negb (String.eqb db_updated_at client_updated_at)
      then Some (HTTPException 409
                   (conflict_data (Note_of_row note_id current_note)
                                  note_update))
      else None
  end.

(** The rest of [update_note]: the UPDATE statement, the commit and the
    fetch of the updated row. *)
Definition update_note_write (now : string) (note_id : Z)
    (note_update : NoteUpdate.t) (current_user : Z) (db : database)
  : result Note.t * database :=
  let db' :=
    set_notes (sql_update_note (NoteUpdate.title note_update)
                 (NoteUpdate.content note_update) note_id current_user now
                 (notes db)) db in
  (fetched_note note_id (notes db'), db').

Definition update_note (now : string) (note_id : Z)
    (note_update : NoteUpdate.t) (current_user : Z) (db : database)
  : result Note.t * database :=
  match update_note_check note_id note_update current_user db with
  | Some failure => (failure, db)
  | None => update_note_write now note_id note_update current_user db
  end.

Definition delete_note (note_id current_user : Z) (db : database)
  : result string * database :=
  if negb (binds note_id (notes db)) then (internal_error, db) else
  match select_note note_id current_user (notes db) with
  | None => (HTTPException 404 (Msg "Note not found"), db)
  | Some _ =>
      (Return "Note deleted successfully",
       set_notes (sql_delete_note note_id current_user (notes db)) db)
  end.

(** ** The states of the service *)

(** The databases the handlers lead to from a fresh file.  [login],
    [get_notes] and [get_note] write nothing. *)
Inductive reachable (bcrypt_hashpw : string → string → string)
  : database → Prop :=
| reachable_init : reachable bcrypt_hashpw init_db
| reachable_register salt now user db :
    reachable bcrypt_hashpw db →
    reachable bcrypt_hashpw (register bcrypt_hashpw salt now user db).2
| reachable_create_note now note current_user db :
    reachable bcrypt_hashpw db →
    reachable bcrypt_hashpw (create_note now note current_user db).2
| reachable_update_note now note_id note_update current_user db :
    reachable bcrypt_hashpw db →
    reachable bcrypt_hashpw
      (update_note now note_id note_update current_user db).2
| reachable_delete_note note_id current_user db :
    reachable bcrypt_hashpw db →
    reachable bcrypt_hashpw (delete_note note_id current_user db).2.

(** One database leads to another by a run of requests. *)
Inductive leads_to (bcrypt_hashpw : string → string → string)
  : database → database → Prop :=
| leads_to_refl db : leads_to bcrypt_hashpw db db
| leads_to_register salt now user db db' :
    leads_to bcrypt_hashpw db db' →
    leads_to bcrypt_hashpw db (register bcrypt_hashpw salt now user db').2
| leads_to_create_note now note current_user db db' :
    leads_to bcrypt_hashpw db db' →
    leads_to bcrypt_hashpw db (create_note now note current_user db').2
| leads_to_update_note now note_id note_update current_user db db' :
    leads_to bcrypt_hashpw db db' →
    leads_to bcrypt_hashpw db
      (update_note now note_id note_update current_user db').2
| leads_to_delete_note note_id current_user db db' :
    leads_to bcrypt_hashpw db db' →
    leads_to bcrypt_hashpw db (delete_note note_id current_user db').2.

(** ** An instance of the primitives, to run the handlers on examples *)

Definition example_HS256 (key : string) (payload : gmap string json) : string :=
  key ++ "." ++
  match payload !! "user_id" with
  | Some (JInt z) => pretty z
  | _ => EmptyString
  end ++
  "." ++
  match payload !! "exp" with
  | Some (JInt z) => pretty z
  | _ => EmptyString
  end.

(** [int] on a text of decimal digits. *)
Fixpoint digits_value (acc : Z) (s : string) : option Z :=
  match s with
  | EmptyString => Some acc
  | String c rest =>
      let n := Z.of_N (Ascii.N_of_ascii c) in
      if (48 <=? n) && (n <=? 57)
      then digits_value (acc * 10 + (n - 48)) rest
      else None
  end.

Definition example_int_of_str (s : string) : option Z :=
  match s with
  | EmptyString => None
  | _ => digits_value 0 s
  end.

Definition example_jwt : PyJWT :=
  {| HS256 := example_HS256;
     int_of_str := example_int_of_str;
     checks_iat_in_future := true;
     checks_sub_and_jti := true |}.

Definition example_hashpw (password salt : string) : string :=
  password ++ "$" ++ salt.

Fixpoint starts_with (p s : string) : bool :=
  match p, s with
  | EmptyString, _ => true
  | String a p', String b s' => Ascii.eqb a b && starts_with p' s'
  | String _ _, EmptyString => false
  end.

Definition example_checkpw (password hashed : string) : bool :=
  starts_with (password ++ "$") hashed.

(** ** Vocabulary of the properties *)

(** The caller owns the note: the row exists and its owner is the caller. *)
Definition owns (db : database) (current_user note_id : Z) : Prop :=
  ∃ r, notes db !! note_id = Some r ∧ r_owner_id r = current_user.

Definition not_found {A} : result A := HTTPException 404 (Msg "Note not found").

Definition invalid_token : result json :=
  HTTPException 401 (Msg "Invalid token").

Definition invalid_credentials {A} : result A :=
  HTTPException 401 (Msg "Invalid credentials").

(** The lexicographic order of the timestamp texts, which is the order of
    the instants they denote. *)
Definition marker_lt (a b : string) : Prop := String.ltb a b = true.

(** The UNIQUE constraint of [users.username]. *)
Definition usernames_unique (db : database) : Prop :=
  ∀ i j ri rj,
    users db !! i = Some ri → users db !! j = Some rj →
    u_username ri = u_username rj → i = j.

(** Some row of [users] has this username. *)
Definition username_taken (db : database) (name : string) : Prop :=
  ∃ k r, users db !! k = Some r ∧ u_username r = name.

(** AUTOINCREMENT: the rowids of a table are positive and not above the
    counter [sqlite_sequence] keeps for it. *)
Definition rowids_in_sequence (db : database) : Prop :=
  (∀ k r, notes db !! k = Some r → 0 < k ≤ notes_seq db) ∧
  (∀ k r, users db !! k = Some r → 0 < k ≤ users_seq db) ∧
  0 ≤ notes_seq db ∧ 0 ≤ users_seq db.

(** Two states of [notes] hold the same rows of every owner but
    [current_user]. *)
Definition same_rows_of_others (current_user : Z) (t t' : gmap Z notes_row)
  : Prop :=
  ∀ k r, r_owner_id r ≠ current_user → t' !! k = Some r ↔ t !! k = Some r.

(** The row [create_note] inserts. *)
Definition created_row (now : string) (note : NoteCreate.t) (current_user : Z)
  : notes_row :=
  NotesRow (NoteCreate.title note) (NoteCreate.content note) current_user
           now now.

(** The row a successful [update_note] leaves in place of [r]. *)
Definition updated_row (now : string) (note_update : NoteUpdate.t)
    (r : notes_row) : notes_row :=
  NotesRow (NoteUpdate.title note_update) (NoteUpdate.content note_update)
           (r_owner_id r) (r_created_at r) now.

(** * Properties of the note store *)

Lemma select_note_Some note_id current_user t r :
  select_note note_id current_user t = Some r ↔
  t !! note_id = Some r ∧ r_owner_id r = current_user.
Proof.
  unfold select_note. destruct (t !! note_id) as [r0|] eqn:E.
  - destruct (decide (r_owner_id r0 = current_user)) as [Ho|Ho].
    + split; [intros [= <-]; done | intros [[= <-] _]; done].
    + split; [done | intros [[= <-] ?]; done].
  - split; [done | intros [? _]; done].
Qed.

Lemma select_note_None note_id current_user t :
  select_note note_id current_user t = None ↔
  (t !! note_id = None ∨
   ∃ r, t !! note_id = Some r ∧ r_owner_id r ≠ current_user).
Proof.
  unfold select_note. destruct (t !! note_id) as [r0|] eqn:E.
  - destruct (decide (r_owner_id r0 = current_user)) as [Ho|Ho].
    + split; [done | intros [? | (r & [= <-] & ?)]; done].
    + split; [intros _; right; eauto | done].
  - split; [by left | done].
Qed.

Lemma select_note_owns db current_user note_id :
  owns db current_user note_id ↔
  is_Some (select_note note_id current_user (notes db)).
Proof.
  split.
  - intros (r & Hr & Ho). exists r. by apply select_note_Some.
  - intros [r Hr]. exists r. by apply select_note_Some.
Qed.

(** An id that names a row is bound; on a table whose keys are 64-bit, as
    those of SQLite are, the ids bound are the 64-bit ones. *)
Lemma binds_row note_id (t : gmap Z notes_row) r :
  t !! note_id = Some r → binds note_id t = true.
Proof.
  intros Hr. unfold binds. rewrite bool_decide_eq_true_2 by eauto.
  apply orb_true_r.
Qed.

Lemma binds_fits note_id (t : gmap Z notes_row) :
  fits_int64 note_id = true → binds note_id t = true.
Proof. intros Hf. unfold binds. by rewrite Hf. Qed.

Lemma binds_64_bit_table note_id (t : gmap Z notes_row) :
  (∀ k r, t !! k = Some r → fits_int64 k = true) →
  binds note_id t = fits_int64 note_id.
Proof.
  intros Hkeys. unfold binds.
  destruct (fits_int64 note_id) eqn:Hf; [done|]. cbn.
  apply bool_decide_eq_false_2. intros [r Hr].
  rewrite (Hkeys _ _ Hr) in Hf. done.
Qed.

Lemma binds_overflow note_id (t : gmap Z notes_row) :
  fits_int64 note_id = false → t !! note_id = None →
  binds note_id t = false.
Proof.
  intros Hf Hn. unfold binds. by rewrite Hf, Hn.
Qed.

(** The UPDATE statement and its trigger rewrite exactly one row. *)
Lemma sql_update_note_owned title content note_id current_user now t r :
  t !! note_id = Some r → r_owner_id r = current_user →
  sql_update_note title content note_id current_user now t =
  <[note_id := NotesRow title content (r_owner_id r) (r_created_at r) now]> t.
Proof.
  intros Hr Ho. unfold sql_update_note.
  rewrite (proj2 (select_note_Some _ _ _ r)) by done.
  unfold update_notes_timestamp. by rewrite alter_insert_eq.
Qed.

Lemma update_note_check_pass note_id note_update current_user db :
  update_note_check note_id note_update current_user db = None ↔
  ∃ r, notes db !! note_id = Some r ∧ r_owner_id r = current_user ∧
       r_updated_at r = NoteUpdate.updated_at note_update.
Proof.
  unfold update_note_check.
  destruct (binds note_id (notes db)) eqn:Hb; cbn [negb].
  2:{ split; [done|]. intros (r & Hr & _).
      by rewrite (binds_row _ _ _ Hr) in Hb. }
  destruct (select_note _ _ _) as [r|] eqn:E.
  - apply select_note_Some in E as [Hr Ho].
    destruct (String.eqb_spec (r_updated_at r)
                (NoteUpdate.updated_at note_update)) as [Heq|Hne]; simpl.
    + split; [intros _; eauto | done].
    + split; [done | intros (r' & Hr' & _ & Hm); congruence].
  - split; [done |].
    intros (r & Hr & Ho & _).
    assert (select_note note_id current_user (notes db) = Some r)
      by by apply select_note_Some.
    congruence.
Qed.

(** What a successful [update_note] returns and leaves behind. *)
Lemma update_note_success now note_id note_update current_user db note db' :
  update_note now note_id note_update current_user db = (Return note, db') ↔
  ∃ r, notes db !! note_id = Some r ∧ r_owner_id r = current_user ∧
       r_updated_at r = NoteUpdate.updated_at note_update ∧
       let r' := NotesRow (NoteUpdate.title note_update)
                   (NoteUpdate.content note_update)
                   (r_owner_id r) (r_created_at r) now in
       note = Note_of_row note_id r' ∧
       db' = set_notes (<[note_id := r']> (notes db)) db.
Proof.
  unfold update_note.
  destruct (update_note_check _ _ _ _) as [failure|] eqn:E.
  - split.
    + intros [= -> <-]. unfold update_note_check in E.
      destruct (negb (binds _ _)); [done|].
      destruct (select_note _ _ _); [|done].
      by destruct (negb _).
    + intros (r & Hr & Ho & Hm & _).
      assert (update_note_check note_id note_update current_user db = None)
        by (apply update_note_check_pass; eauto).
      congruence.
  - apply update_note_check_pass in E as (r & Hr & Ho & Hm).
    unfold update_note_write, fetched_note.
    rewrite (sql_update_note_owned _ _ _ _ _ _ r) by done.
    simpl. rewrite lookup_insert_eq.
    split.
    + intros [= <- <-]. exists r. done.
    + intros (r0 & Hr0 & _ & _ & -> & ->).
      assert (r0 = r) as -> by congruence. done.
Qed.

(** Without a row for the caller the three handlers stop at their first
    statement. *)
Lemma handlers_without_row now note_id note_update current_user db :
  binds note_id (notes db) = true →
  select_note note_id current_user (notes db) = None →
  get_note note_id current_user db = (not_found, db) ∧
  update_note now note_id note_update current_user db = (not_found, db) ∧
  delete_note note_id current_user db = (not_found, db).
Proof.
  intros Hb H. unfold get_note, update_note, update_note_check, delete_note.
  by rewrite Hb, H.
Qed.

(** With an id that is not bound they stop before it. *)
Lemma handlers_overflow now note_id note_update current_user db :
  binds note_id (notes db) = false →
  get_note note_id current_user db = (internal_error, db) ∧
  update_note now note_id note_update current_user db = (internal_error, db) ∧
  delete_note note_id current_user db = (internal_error, db).
Proof.
  intros Hb. unfold get_note, update_note, update_note_check, delete_note.
  by rewrite Hb.
Qed.

(** ** Conflict detection *)



(** ** Owner scoping *)

(** C6.  For a note id within the 64-bit range that names no row, or names
    a row of another owner, [get_note], [update_note] and [delete_note] all
    raise the same 404 response and leave the database as it was: the two
    cases cannot be told apart.  For a note id outside the 64-bit range
    (which names no row) the binding of the id raises OverflowError, which
    no handler catches: the three answer with the status 500 instead. *)
Theorem not_owned_is_not_found now note_id note_update current_user db :
  (fits_int64 note_id = true →
   (notes db !! note_id = None ∨
    ∃ r, notes db !! note_id = Some r ∧ r_owner_id r ≠ current_user) →
   get_note note_id current_user db =
     (HTTPException 404 (Msg "Note not found"), db) ∧
   update_note now note_id note_update current_user db =
     (HTTPException 404 (Msg "Note not found"), db) ∧
   delete_note note_id current_user db =
     (HTTPException 404 (Msg "Note not found"), db)) ∧
  (fits_int64 note_id = false →
   notes db !! note_id = None →
   get_note note_id current_user db =
     (HTTPException 500 (Msg "Internal Server Error"), db) ∧
   update_note now note_id note_update current_user db =
     (HTTPException 500 (Msg "Internal Server Error"), db) ∧
   delete_note note_id current_user db =
     (HTTPException 500 (Msg "Internal Server Error"), db)).
Proof.
  split.
  - intros Hf H. apply select_note_None in H.
    by apply handlers_without_row; [apply binds_fits|].
  - intros Hf Hn. by apply handlers_overflow, binds_overflow.
Qed.

Lemma not_owned_is_not_found_witness :
  let db := (create_note "2024-01-01 00:00:00"
               (NoteCreate.Build "A" "x") 7 init_db).2 in
  (get_note 1 8 db).1 = (get_note 2 8 db).1 ∧
  (delete_note 1 8 db).1 = (delete_note 2 8 db).1 ∧
  (get_note (2 ^ 63) 8 db).1 = HTTPException 500 (Msg "Internal Server Error").
Proof.
  intros db.
  destruct (not_owned_is_not_found "2024-01-01 00:00:05" 1
              (NoteUpdate.Build "B" "y" "2024-01-01 00:00:00") 8 db)
    as [Hin1 _].
  destruct Hin1 as (Hg1 & _ & Hd1); [reflexivity| |].
  { right. eexists. split; [by vm_compute | by vm_compute]. }
  destruct (not_owned_is_not_found "2024-01-01 00:00:05" 2
              (NoteUpdate.Build "B" "y" "2024-01-01 00:00:00") 8 db)
    as [Hin2 _].
  destruct Hin2 as (Hg2 & _ & Hd2); [reflexivity| |].
  { left. by vm_compute. }
  destruct (not_owned_is_not_found "2024-01-01 00:00:05" (2 ^ 63)
              (NoteUpdate.Build "B" "y" "2024-01-01 00:00:00") 8 db)
    as [_ Hout].
  destruct Hout as (Hg3 & _ & _); [reflexivity | by vm_compute |].
  rewrite Hg1, Hg2, Hd1, Hd2, Hg3. done.
Defined.

(** ** Deletion *)

(** C8.  [delete_note] takes no marker.  When the caller owns the note id
    the row is removed whatever its marker is, and nothing else changes;
    from then on the id is not found by [delete_note], [get_note] and
    [update_note], for every caller.  When the caller does not own the note
    id (a row of another owner, a row never created, a row already deleted)
    and the id is within the 64-bit range, [delete_note] raises the 404
    response; for an id outside that range, which names no row, the
    binding of the id raises OverflowError and the answer is the status
    500 instead. *)
Theorem delete_note_unconditional note_id current_user db :
  (fits_int64 note_id = true →
   ¬ owns db current_user note_id →
   delete_note note_id current_user db =
     (HTTPException 404 (Msg "Note not found"), db)) ∧
  (fits_int64 note_id = false →
   notes db !! note_id = None →
   delete_note note_id current_user db =
     (HTTPException 500 (Msg "Internal Server Error"), db)) ∧
  (owns db current_user note_id →
   let db' := set_notes (delete note_id (notes db)) db in
   delete_note note_id current_user db =
     (Return "Note deleted successfully", db') ∧
   notes db' !! note_id = None ∧
   (∀ k, k ≠ note_id → notes db' !! k = notes db !! k) ∧
   users db' = users db ∧
   ∀ caller now note_update,
     fits_int64 note_id = true →
     delete_note note_id caller db' =
       (HTTPException 404 (Msg "Note not found"), db') ∧
     get_note note_id caller db' =
       (HTTPException 404 (Msg "Note not found"), db') ∧
     update_note now note_id note_update caller db' =
       (HTTPException 404 (Msg "Note not found"), db')).
Proof.
  split; [|split].
  - intros Hf Hno. unfold delete_note. rewrite (binds_fits _ _ Hf). cbn [negb].
    destruct (select_note _ _ _) as [r|] eqn:E; [|done].
    destruct Hno. apply select_note_owns. eauto.
  - intros Hf Hn. unfold delete_note.
    by rewrite (binds_overflow _ _ Hf Hn).
  - intros Hown db'.
    assert (notes db' !! note_id = None) as Hgone
      by (subst db'; simpl; apply lookup_delete_eq).
    apply select_note_owns in Hown as [r Hr].
    split; [|split; [done|split; [|split; [done|]]]].
    + unfold delete_note, sql_delete_note.
      apply select_note_Some in Hr as Hrow. destruct Hrow as [Hrow _].
      rewrite (binds_row _ _ _ Hrow). cbn [negb]. by rewrite Hr.
    + intros k Hk. subst db'; simpl. by apply lookup_delete_ne.
    + intros caller now note_update Hf.
      destruct (handlers_without_row now note_id note_update caller db')
        as (Hg & Hu & Hd);
        [by apply binds_fits | apply select_note_None; by left|].
      done.
Qed.

Lemma delete_note_unconditional_witness :
  let db := (create_note "2024-01-01 00:00:00"
               (NoteCreate.Build "A" "x") 7 init_db).2 in
  (delete_note 1 7 db).1 = Return "Note deleted successfully" ∧
  (delete_note 1 7 (delete_note 1 7 db).2).1 =
    HTTPException 404 (Msg "Note not found") ∧
  (delete_note 5 7 db).1 = HTTPException 404 (Msg "Note not found") ∧
  (delete_note (2 ^ 63) 7 db).1 =
    HTTPException 500 (Msg "Internal Server Error").
Proof.
  intros db.
  destruct (delete_note_unconditional 1 7 db) as (_ & _ & Hdel).
  destruct Hdel as (Hd & _ & _ & _ & Hterm).
  { eexists. split; by vm_compute. }
  destruct (delete_note_unconditional 5 7 db) as (Hnf & _ & _).
  destruct (delete_note_unconditional (2 ^ 63) 7 db) as (_ & Hover & _).
  destruct (Hterm 7 "2024-01-01 00:00:09"
              (NoteUpdate.Build "A" "x" "2024-01-01 00:00:00"))
    as (Hagain & _); [reflexivity|].
  rewrite Hd, Hnf, Hover.
  - cbn [fst snd]. by rewrite Hagain.
  - reflexivity.
  - by vm_compute.
  - reflexivity.
  - intros (r & Hr & _). by vm_compute in Hr.
Defined.

(** ** Frame of a successful update *)

(** C9. A successful [update_note] rewrites the title, the content and the
    [updated_at] of the row [note_id] and nothing else: the row keeps its
    rowid, its owner and its [created_at]; every other row of [notes], the
    table [users] and both AUTOINCREMENT counters are as before. *)
Theorem update_note_frame now note_id note_update current_user db note db' :
  update_note now note_id note_update current_user db = (Return note, db') →
  ∃ r r',
    notes db !! note_id = Some r ∧
    notes db' !! note_id = Some r' ∧
    note = Note_of_row note_id r' ∧
    r_title r' = NoteUpdate.title note_update ∧
    r_content r' = NoteUpdate.content note_update ∧
    r_updated_at r' = now ∧
    r_owner_id r' = r_owner_id r ∧
    r_created_at r' = r_created_at r ∧
    (∀ k, k ≠ note_id → notes db' !! k = notes db !! k) ∧
    dom (notes db') = dom (notes db) ∧
    users db' = users db ∧
    users_seq db' = users_seq db ∧
    notes_seq db' = notes_seq db.
Proof.
  intros H. apply update_note_success in H.
  destruct H as (r & Hr & Ho & Hm & -> & ->).
  eexists r, _. simpl.
  rewrite lookup_insert_eq.
  repeat split; try done.
  - intros k Hk. by apply lookup_insert_ne.
  - rewrite dom_insert_L. apply elem_of_dom_2 in Hr.
    apply set_eq. intros k. rewrite elem_of_union, elem_of_singleton.
    split; [intros [->|?]; done | by right].
Qed.

Lemma update_note_frame_witness :
  let db0 := (create_note "2024-01-01 00:00:00"
                (NoteCreate.Build "A" "x") 7 init_db).2 in
  let db := (create_note "2024-01-01 00:00:01"
               (NoteCreate.Build "B" "w") 8 db0).2 in
  let out := update_note "2024-01-01 00:00:05" 1
               (NoteUpdate.Build "A" "y" "2024-01-01 00:00:00") 7 db in
  notes out.2 !! 2 = notes db !! 2.
Proof.
  intros db0 db out.
  destruct (update_note_frame "2024-01-01 00:00:05" 1
              (NoteUpdate.Build "A" "y" "2024-01-01 00:00:00") 7 db
              (Note.Build 1 "A" "y" 7 "2024-01-01 00:00:00"
                          "2024-01-01 00:00:05")
              out.2)
    as (r & r' & _ & _ & _ & _ & _ & _ & _ & _ & Hother & _).
  - by vm_compute.
  - by apply Hother.
Defined.

(** ** The marker *)

(** C3, as amended.  After a successful [update_note] the marker of the note
    is the reading of the store's clock at that write, in the response and
    in the stored row: it is greater than the previous marker exactly when
    that reading is later than the previous marker. *)
Theorem update_note_marker_is_clock
    now note_id note_update current_user db note db' r :
  update_note now note_id note_update current_user db = (Return note, db') →
  notes db !! note_id = Some r →
  Note.updated_at note = now ∧
  r_updated_at <$> notes db' !! note_id = Some now ∧
  (marker_lt (r_updated_at r) (Note.updated_at note) ↔
   marker_lt (r_updated_at r) now).
Proof.
  intros H Hr.
  apply update_note_success in H.
  destruct H as (r0 & Hr0 & _ & _ & -> & ->).
  simpl. rewrite lookup_insert_eq. done.
Qed.

Lemma update_note_marker_is_clock_witness :
  let db := (create_note "2024-01-01 00:00:00"
               (NoteCreate.Build "A" "x") 7 init_db).2 in
  ∃ note db',
    update_note "2024-01-01 00:00:05" 1
      (NoteUpdate.Build "A" "y" "2024-01-01 00:00:00") 7 db = (Return note, db') ∧
    marker_lt "2024-01-01 00:00:00" (Note.updated_at note).
Proof.
  intros db. eexists _, _. split; [by vm_compute|].
  eapply (update_note_marker_is_clock "2024-01-01 00:00:05" 1
            (NoteUpdate.Build "A" "y" "2024-01-01 00:00:00") 7 db _ _
            (NotesRow "A" "x" 7 "2024-01-01 00:00:00" "2024-01-01 00:00:00")).
  - by vm_compute.
  - by vm_compute.
  - by vm_compute.
Defined.

(** C3, counterexample.  A note is created and then updated twice while the
    store's clock reads the same second; both updates succeed, and neither
    marker is greater than the one before it: the three are equal. *)
Lemma update_note_marker_tie :
  let t0 := "2024-01-01 00:00:00" in
  let db0 := (create_note t0 (NoteCreate.Build "A" "x") 7 init_db).2 in
  let u1 := update_note t0 1 (NoteUpdate.Build "A" "y" t0) 7 db0 in
  let u2 := update_note t0 1 (NoteUpdate.Build "A" "z" t0) 7 u1.2 in
  r_updated_at <$> notes db0 !! 1 = Some t0 ∧
  u1.1 = Return (Note.Build 1 "A" "y" 7 t0 t0) ∧
  u2.1 = Return (Note.Build 1 "A" "z" 7 t0 t0) ∧
  ¬ marker_lt t0 t0.
Proof. by vm_compute. Qed.

(** ** Two updates that believe the same marker *)

(** The UPDATE statement does not look at the marker: once the comparison
    has passed for two requests on the same state of the note, both writes
    go through, in either order and whatever the clock reads, and the second
    replaces what the first wrote. *)
Lemma update_note_write_after_write
    now1 now2 note_id upd1 upd2 current_user db :
  update_note_check note_id upd1 current_user db = None →
  update_note_check note_id upd2 current_user db = None →
  let w1 := update_note_write now1 note_id upd1 current_user db in
  let w2 := update_note_write now2 note_id upd2 current_user w1.2 in
  is_success w1.1 = true ∧
  ∃ r, notes db !! note_id = Some r ∧
       w2.1 = Return (Note.Build note_id (NoteUpdate.title upd2)
                        (NoteUpdate.content upd2) (r_owner_id r)
                        (r_created_at r) now2).
Proof.
  intros H1 _. apply update_note_check_pass in H1 as (r & Hr & Ho & _).
  unfold update_note_write, fetched_note. cbn [fst snd].
  rewrite (sql_update_note_owned _ _ _ _ _ _ r) by done.
  cbn [notes set_notes].
  erewrite sql_update_note_owned; [|apply lookup_insert_eq|done].
  rewrite !lookup_insert_eq. split; [done|]. exists r. done.
Qed.

(** C2, as amended.  Each [update_note] runs its reading of the marker,
    its comparison and its write as one unit, and two requests on the same
    note that believe the same marker are served one after the other, in
    either order.  When the store's clock at the first one's write reads
    something other than that marker, at most one of the two succeeds; and
    when the first succeeds the second raises the 409 response, writes
    nothing, and its [current_note] is the note the first returned: no
    update is lost. *)
Theorem update_note_second_conflicts
    now1 now2 note_id upd1 upd2 current_user db :
  NoteUpdate.updated_at upd2 = NoteUpdate.updated_at upd1 →
  now1 ≠ NoteUpdate.updated_at upd1 →
  let first := update_note now1 note_id upd1 current_user db in
  let second := update_note now2 note_id upd2 current_user first.2 in
  is_success first.1 && is_success second.1 = false ∧
  ∀ note1,
    first.1 = Return note1 →
    second =
    (HTTPException 409
       (ConflictData
          {| ConflictError.error := "conflict";
             ConflictError.message :=
               "Note has been updated by another user. Please resolve conflicts.";
             ConflictError.current_note := note1;
             ConflictError.your_changes :=
               {| Changes.title := NoteUpdate.title upd2;
                  Changes.content := NoteUpdate.content upd2 |} |}),
     first.2).
Proof.
  intros HM Hclock first second.
  assert (∀ note1, first.1 = Return note1 →
            second =
            (HTTPException 409 (conflict_data note1 upd2), first.2)) as Hsecond.
  { intros note1 H1. subst second.
    destruct first as [out1 db1] eqn:Hfirst. cbn [fst snd] in *. subst out1.
    apply update_note_success in Hfirst.
    destruct Hfirst as (r & Hr & Ho & Hm & -> & ->).
    unfold update_note, update_note_check. cbn [notes set_notes].
    erewrite binds_row by apply lookup_insert_eq. cbn [negb].
    erewrite (proj2 (select_note_Some _ _ _ _));
      [|split; [apply lookup_insert_eq|done]].
    cbn [r_updated_at].
    destruct (String.eqb_spec now1 (NoteUpdate.updated_at upd2)) as [Heq|_];
      [congruence|].
    reflexivity. }
  split; [|exact Hsecond].
  destruct (first.1) as [note1|status d] eqn:H1; [|done].
  by rewrite (Hsecond note1).
Qed.

Lemma update_note_second_conflicts_witness :
  let t0 := "2024-01-01 00:00:00" in
  let db0 := (create_note t0 (NoteCreate.Build "A" "x") 7 init_db).2 in
  let u1 := update_note "2024-01-01 00:00:03" 1
              (NoteUpdate.Build "A" "y" t0) 7 db0 in
  ∃ c, (update_note "2024-01-01 00:00:04" 1
          (NoteUpdate.Build "A" "z" t0) 7 u1.2).1
       = HTTPException 409 (ConflictData c) ∧
       Note.content (ConflictError.current_note c) = "y".
Proof.
  intros t0 db0 u1. eexists.
  destruct (update_note_second_conflicts "2024-01-01 00:00:03"
              "2024-01-01 00:00:04" 1 (NoteUpdate.Build "A" "y" t0)
              (NoteUpdate.Build "A" "z" t0) 7 db0) as [_ Hsecond];
    [reflexivity | by vm_compute |].
  cbv zeta in Hsecond. subst u1.
  rewrite (Hsecond (Note.Build 1 "A" "y" 7 t0 "2024-01-01 00:00:03"));
    [split; reflexivity | by vm_compute].
Defined.

(** C2, counterexample.  Two [update_note] requests on the same note, both
    believing the marker the note was created with, run one after the other
    within the second of the creation: both succeed, no 409 response is
    raised, and the content the first wrote is replaced by the second. *)
Lemma update_note_both_succeed :
  let M := "2024-01-01 00:00:00" in
  let db0 := (create_note M (NoteCreate.Build "A" "x") 7 init_db).2 in
  let u1 := update_note M 1 (NoteUpdate.Build "A" "mine" M) 7 db0 in
  let u2 := update_note M 1 (NoteUpdate.Build "A" "yours" M) 7 u1.2 in
  is_success u1.1 = true ∧
  is_success u2.1 = true ∧
  r_content <$> notes u1.2 !! 1 = Some "mine" ∧
  r_content <$> notes u2.2 !! 1 = Some "yours".
Proof. by vm_compute. Qed.

(** * Properties of the tables *)

Lemma max_rowid_ge {A} (t : gmap Z A) k v : t !! k = Some v → k ≤ max_rowid t.
Proof.
  intros Hk. unfold max_rowid.
  assert (k ∈ (map_to_list t).*1) as Hin.
  { apply list_elem_of_fmap. exists (k, v). split; [done|].
    by apply elem_of_map_to_list. }
  clear Hk. induction Hin as [k l | k k' l _ IH]; cbn [foldr].
  - apply Z.le_max_l.
  - etrans; [apply IH | apply Z.le_max_r].
Qed.

Lemma next_rowid_fresh {A} seq (t : gmap Z A) : t !! next_rowid seq t = None.
Proof.
  destruct (t !! next_rowid seq t) as [v|] eqn:E; [|done].
  apply max_rowid_ge in E. unfold next_rowid in E. lia.
Qed.

Lemma select_user_by_username_Some name t k r :
  select_user_by_username name t = Some (k, r) →
  t !! k = Some r ∧ u_username r = name.
Proof.
  unfold select_user_by_username. intros H.
  apply head_Some_elem_of, list_elem_of_filter in H as [Hn Hin].
  by apply elem_of_map_to_list in Hin.
Qed.

Lemma select_user_by_username_None name t :
  select_user_by_username name t = None ↔
  ∀ k r, t !! k = Some r → u_username r ≠ name.
Proof.
  unfold select_user_by_username. rewrite head_None. split.
  - intros H k r Hk Hname.
    apply (filter_nil_not_elem_of _ _ (k, r)) in H; [|done].
    apply H. by apply elem_of_map_to_list.
  - intros H.
    destruct (filter _ _) as [|[k r] l] eqn:E; [done|].
    assert ((k, r) ∈ filter (λ kr : Z * users_row, u_username kr.2 = name)
                            (map_to_list t)) as Hin
      by (rewrite E; left).
    apply list_elem_of_filter in Hin as [Hn Hin].
    apply elem_of_map_to_list in Hin. by destruct (H k r).
Qed.

Lemma select_user_by_username_taken db name :
  username_taken db name ↔
  is_Some (select_user_by_username name (users db)).
Proof.
  split.
  - intros (k & r & Hk & Hn).
    destruct (select_user_by_username name (users db)) eqn:E; [eauto|].
    by destruct (proj1 (select_user_by_username_None _ _) E k r).
  - intros [[k r] H]. apply select_user_by_username_Some in H as [? ?].
    by exists k, r.
Qed.

(** Under the UNIQUE constraint the query returns the one row of the name. *)
Lemma select_user_by_username_unique db name k r :
  usernames_unique db →
  users db !! k = Some r → u_username r = name →
  select_user_by_username name (users db) = Some (k, r).
Proof.
  intros Huniq Hk Hn.
  destruct (select_user_by_username name (users db)) as [[k' r']|] eqn:E.
  - apply select_user_by_username_Some in E as [Hk' Hn'].
    assert (k' = k) as -> by (eapply Huniq; [done..|congruence]).
    congruence.
  - by destruct (proj1 (select_user_by_username_None _ _) E k r).
Qed.

(** The rows [get_notes] returns are the rows of the owner. *)
Lemma select_notes_by_owner_elem current_user (t : gmap Z notes_row) n :
  n ∈ select_notes_by_owner current_user t ↔
  ∃ k r, t !! k = Some r ∧ r_owner_id r = current_user ∧ n = Note_of_row k r.
Proof.
  unfold select_notes_by_owner.
  rewrite merge_sort_Permutation, list_elem_of_filter, list_elem_of_fmap.
  split.
  - intros (Ho & [k r] & -> & Hin). apply elem_of_map_to_list in Hin.
    exists k, r. done.
  - intros (k & r & Hk & Ho & ->). split; [done|].
    exists (k, r). split; [done|]. by apply elem_of_map_to_list.
Qed.

(** * Properties of the session authenticator *)

(** ** The checks of the claims *)

Lemma first_verdict_Pass checks :
  first_verdict checks = Pass ↔ Forall (eq Pass) checks.
Proof.
  induction checks as [|[|e|] rest IH]; cbn.
  - split; [constructor | done].
  - rewrite IH. split; [by constructor | by inversion 1].
  - split; [done | by inversion 1].
  - split; [done | by inversion 1].
Qed.








(** The whole seconds of an instant against an integer. *)
Lemma timegm_lt now n : timegm now < n ↔ now < n * 1000000.
Proof.
  unfold timegm. split.
  - intros H. destruct (Z.lt_ge_cases now (n * 1000000)) as [|Hge]; [done|].
    assert (n ≤ now / 1000000) by (apply Z.div_le_lower_bound; lia). lia.
  - intros H. apply Z.div_lt_upper_bound; lia.
Qed.

Lemma timegm_add_seconds t n : timegm (t + n * 1000000) = timegm t + n.
Proof. unfold timegm. by rewrite Z.div_add. Qed.

(** The checks on the payload [create_access_token] makes for [login]:
    only [exp] is there to be checked. *)
Lemma validate_claims_login_payload jwt now user_id exp :
  validate_claims jwt now
    (<["exp" := JInt exp]> {[ "user_id" := JInt user_id ]}) =
  if exp * 1000000 <=? now then Refuse ExpiredSignatureError else Pass.
Proof.
  unfold validate_claims, claim_checks, validate_iat, validate_nbf,
    validate_exp, validate_aud, validate_sub, validate_jti.
  rewrite lookup_insert_eq.
  rewrite !lookup_insert_ne, !lookup_singleton_ne by done.
  cbn. by destruct (exp * 1000000 <=? now).
Qed.

Section AuthProperties.

Variable jwt : PyJWT.
Variable bcrypt_hashpw : string → string → string.
Variable bcrypt_checkpw : string → string → bool.

(** A password checks against every hash made of it. *)
Hypothesis bcrypt_checkpw_hashpw :
  ∀ password salt,
    bcrypt_checkpw password (bcrypt_hashpw password salt) = true.


Lemma create_access_token_payload utcnow data :
  create_access_token jwt utcnow data =
  let payload := <["exp" := JInt (timegm utcnow + 1800)]> data in
  Jwt payload (HS256 jwt SECRET_KEY payload).
Proof.
  unfold create_access_token, jwt_encode.
  change (ACCESS_TOKEN_EXPIRE_MINUTES * 60 * 1000000) with (1800 * 1000000).
  by rewrite timegm_add_seconds.
Qed.

(** The token of [login] is accepted until the whole seconds of the clock
    reach the whole seconds of the issue plus 30 minutes, and refused from
    then on. *)
Lemma login_token_window issued now user_id :
  get_current_user jwt now
    (create_access_token jwt issued {[ "user_id" := JInt user_id ]}) =
  if decide (timegm now < timegm issued + 1800)
  then Return (JInt user_id) else invalid_token.
Proof.
  rewrite create_access_token_payload. cbn zeta.
  unfold get_current_user, jwt_decode. rewrite decide_True by done.
  rewrite validate_claims_login_payload.
  destruct (Z.leb_spec ((timegm issued + 1800) * 1000000) now) as [Hle|Hgt].
  - rewrite decide_False; [done|]. rewrite timegm_lt. lia.
  - rewrite decide_True by by apply timegm_lt.
    rewrite lookup_insert_ne by done. by rewrite lookup_singleton_eq.
Qed.


(** ** Registration *)

Lemma register_taken salt now user db :
  username_taken db (UserCreate.username user) →
  register bcrypt_hashpw salt now user db =
  (HTTPException 400 (Msg "Username already exists"), db).
Proof.
  intros H. apply select_user_by_username_taken in H as [kr H].
  unfold register. by rewrite H.
Qed.

Lemma register_free salt now user db :
  ¬ username_taken db (UserCreate.username user) →
  let user_id := next_rowid (users_seq db) (users db) in
  register bcrypt_hashpw salt now user db =
  (Return (user_id, UserCreate.username user, "User created"),
   {| users :=
        <[user_id := UsersRow (UserCreate.username user)
                       (bcrypt_hashpw (UserCreate.password user) salt) now]>
          (users db);
      notes := notes db;
      users_seq := user_id;
      notes_seq := notes_seq db |}).
Proof.
  intros H user_id.
  assert (select_user_by_username (UserCreate.username user) (users db)
          = None) as Hsel.
  { destruct (select_user_by_username _ _) eqn:E; [|done].
    destruct H. apply select_user_by_username_taken. eauto. }
  unfold register, insert_user. by rewrite !Hsel.
Qed.

(** The handlers keep the usernames unique. *)
Lemma register_usernames_unique salt now user db :
  usernames_unique db →
  usernames_unique (register bcrypt_hashpw salt now user db).2.
Proof.
  intros Huniq.
  destruct (select_user_by_username (UserCreate.username user) (users db))
    as [kr|] eqn:E.
  - rewrite register_taken; [done|].
    apply select_user_by_username_taken. eauto.
  - assert (¬ username_taken db (UserCreate.username user)) as Hfree.
    { intros H. apply select_user_by_username_taken in H as [? ?].
      congruence. }
    rewrite register_free by done. cbn [snd].
    pose proof (next_rowid_fresh (users_seq db) (users db)) as Hfresh.
    set (user_id := next_rowid (users_seq db) (users db)) in *.
    intros i j ri rj. cbn [users].
    rewrite !lookup_insert.
    destruct (decide (user_id = i)) as [<-|Hi],
             (decide (user_id = j)) as [<-|Hj]; try done.
    + intros [= <-] Hj' Hn. destruct Hfree. exists j, rj. done.
    + intros Hi' [= <-] Hn. destruct Hfree. exists i, ri. done.
    + apply Huniq.
Qed.

Lemma reachable_usernames_unique db :
  reachable bcrypt_hashpw db → usernames_unique db.
Proof.
  induction 1 as [|salt now user db _ IH|now note cu db _ IH
                  |now note_id upd cu db _ IH|note_id cu db _ IH].
  - intros i j ri rj Hi. cbn [users init_db] in Hi.
    by rewrite lookup_empty in Hi.
  - by apply register_usernames_unique.
  - exact IH.
  - unfold update_note.
    destruct (update_note_check _ _ _ _); exact IH.
  - unfold delete_note. destruct (negb _); [exact IH|].
    destruct (select_note _ _ _); exact IH.
Qed.


(** ** Login *)


(** ** Tokens and the credential store *)


End AuthProperties.

(** * The properties on examples *)

Lemma example_checkpw_hashpw password salt :
  example_checkpw password (example_hashpw password salt) = true.
Proof.
  unfold example_checkpw, example_hashpw.
  induction password as [|a password IH]; [reflexivity|].
  simpl. by rewrite Ascii.eqb_refl, IH.
Defined.







(** Nothing ties the owner of a note to a row of [users] (the connection
    does not enforce the foreign key of the schema): on a fresh database
    [create_note] stores a note for the id 99 of no user, and [get_notes]
    returns it. *)
Lemma token_of_unknown_user_lists_notes :
  let db := (create_note "2024-01-01 00:00:00"
               (NoteCreate.Build "A" "x") 99 init_db).2 in
  users db !! 99 = None ∧
  (get_notes 99 db).1 =
    Return [Note.Build 1 "A" "x" 99 "2024-01-01 00:00:00"
                       "2024-01-01 00:00:00"].
Proof. by vm_compute. Qed.

(** * Further properties of the notes routes *)

Lemma create_note_eq now note current_user db :
  let note_id := next_rowid (notes_seq db) (notes db) in
  create_note now note current_user db =
  (Return (Note_of_row note_id (created_row now note current_user)),
   {| users := users db;
      notes := <[note_id := created_row now note current_user]> (notes db);
      users_seq := users_seq db;
      notes_seq := note_id |}).
Proof.
  intros note_id. unfold create_note, insert_note, fetched_note.
  cbn [notes]. by rewrite lookup_insert_eq.
Qed.

Lemma delete_note_owned note_id current_user db r :
  notes db !! note_id = Some r → r_owner_id r = current_user →
  delete_note note_id current_user db =
  (Return "Note deleted successfully",
   set_notes (delete note_id (notes db)) db).
Proof.
  intros Hr Ho. unfold delete_note, sql_delete_note.
  rewrite (binds_row _ _ _ Hr). cbn [negb].
  by rewrite (proj2 (select_note_Some _ _ _ r)).
Qed.

Lemma get_note_owned note_id current_user db r :
  notes db !! note_id = Some r → r_owner_id r = current_user →
  get_note note_id current_user db = (Return (Note_of_row note_id r), db).
Proof.
  intros Hr Ho. unfold get_note.
  rewrite (binds_row _ _ _ Hr). cbn [negb].
  by rewrite (proj2 (select_note_Some _ _ _ r)).
Qed.

(** ** Creation *)


(** X2.  The creator reads the created note back with [get_note]; every other
    caller gets the 404 response for its id. *)
Theorem create_note_then_get_note now note current_user db created db' :
  create_note now note current_user db = (Return created, db') →
  get_note (Note.id created) current_user db' = (Return created, db') ∧
  ∀ other, other ≠ current_user →
    get_note (Note.id created) other db' = (not_found, db').
Proof.
  rewrite create_note_eq. intros [= <- <-]. cbn [Note.id Note_of_row]. split.
  - erewrite get_note_owned; [done| |done].
    cbn [notes]. apply lookup_insert_eq.
  - intros other Hne. unfold get_note. cbn [notes].
    erewrite binds_row by apply lookup_insert_eq. cbn [negb].
    rewrite (proj2 (select_note_None _ _ _)); [done|].
    right. eexists.
    split; [apply lookup_insert_eq|]. cbn. congruence.
Qed.

Lemma create_note_then_get_note_witness :
  let out := create_note "2024-01-01 00:00:00"
               (NoteCreate.Build "A" "x") 7 init_db in
  (get_note 1 7 out.2).1 = out.1 ∧
  (get_note 1 8 out.2).1 = not_found.
Proof.
  intros out.
  destruct (create_note_then_get_note "2024-01-01 00:00:00"
              (NoteCreate.Build "A" "x") 7 init_db
              (Note.Build 1 "A" "x" 7 "2024-01-01 00:00:00"
                 "2024-01-01 00:00:00") out.2) as [Hget Hother];
    [by vm_compute|].
  cbn [Note.id] in Hget, Hother.
  rewrite Hget, (Hother 8) by done. split; [by vm_compute | done].
Defined.

(** ** Markers handed out are accepted *)







(** X6.  A successful [update_note] is read back by [get_note]: the owner gets
    the note the update returned. *)
Theorem update_note_then_get_note
    now note_id note_update current_user db note db' :
  update_note now note_id note_update current_user db = (Return note, db') →
  get_note note_id current_user db' = (Return note, db').
Proof.
  intros H. apply update_note_success in H.
  destruct H as (r & Hr & Ho & Hm & -> & ->).
  erewrite get_note_owned; [done| |done].
  cbn [notes set_notes]. apply lookup_insert_eq.
Qed.

Lemma update_note_then_get_note_witness :
  let t0 := "2024-01-01 00:00:00" in
  let db := (create_note t0 (NoteCreate.Build "A" "x") 7 init_db).2 in
  let u1 := update_note "2024-01-01 00:00:05" 1
              (NoteUpdate.Build "A" "y" t0) 7 db in
  (get_note 1 7 u1.2).1 = u1.1.
Proof.
  intros t0 db u1.
  rewrite (update_note_then_get_note "2024-01-01 00:00:05" 1
             (NoteUpdate.Build "A" "y" t0) 7 db
             (Note.Build 1 "A" "y" 7 t0 "2024-01-01 00:00:05") u1.2);
    by vm_compute.
Defined.

(** ** Listing *)

Lemma ascii_compare_cases a b :
  (Ascii.compare a b = Eq ∧ a = b) ∨
  (Ascii.compare a b = Lt ∧ (Ascii.N_of_ascii a < Ascii.N_of_ascii b)%N) ∨
  (Ascii.compare a b = Gt ∧ (Ascii.N_of_ascii b < Ascii.N_of_ascii a)%N).
Proof.
  destruct (Ascii.compare a b) eqn:E.
  - left. split; [done|]. by apply Ascii.compare_eq_iff.
  - right; left. split; [done|]. unfold Ascii.compare in E.
    by apply N.compare_lt_iff.
  - right; right. split; [done|]. unfold Ascii.compare in E.
    by apply N.compare_gt_iff.
Qed.

Lemma string_leb_trans s1 s2 s3 :
  String.leb s1 s2 = true → String.leb s2 s3 = true → String.leb s1 s3 = true.
Proof.
  unfold String.leb. revert s2 s3.
  induction s1 as [|a s1 IH]; intros [|b s2] [|c s3]; cbn; try done.
  destruct (ascii_compare_cases a b) as [[-> ->]|[[-> Hab]|[-> Hab]]];
    destruct (ascii_compare_cases b c) as [[Hbc ->]|[[Hbc Hbc']|[Hbc Hbc']]];
    rewrite ?Hbc; try done.
  - apply IH.
  - intros _ _.
    destruct (ascii_compare_cases a c) as [[_ Hac]|[[-> _]|[_ Hac]]];
      [subst; lia | done | lia].
  - intros _ _.
    destruct (ascii_compare_cases a c) as [[_ Hac]|[[-> _]|[_ Hac]]];
      [subst; lia | done | lia].
Qed.

Global Instance updated_at_desc_total : Total updated_at_desc.
Proof.
  intros a b. unfold updated_at_desc.
  destruct (String.leb_total (Note.updated_at a) (Note.updated_at b)); auto.
Qed.

Global Instance updated_at_desc_trans : Transitive updated_at_desc.
Proof.
  intros a b c Hab Hbc. unfold updated_at_desc in *.
  by eapply string_leb_trans.
Qed.

Global Instance Note_of_row_inj :
  Inj (=) (=) (λ kr : Z * notes_row, Note_of_row kr.1 kr.2).
Proof.
  intros [k1 [t1 c1 o1 ca1 ua1]] [k2 [t2 c2 o2 ca2 ua2]].
  unfold Note_of_row; cbn. by intros [= -> -> -> -> -> ->].
Qed.

(** X7.  [get_notes] never raises and writes nothing.  It returns the notes of
    the caller and no others, each once, ordered by [updated_at] from the
    latest to the earliest: no note is later than one listed before it. *)
Theorem get_notes_listing current_user db :
  ∃ l, get_notes current_user db = (Return l, db) ∧
       StronglySorted updated_at_desc l ∧
       NoDup l ∧
       ∀ n, n ∈ l ↔
            ∃ r, notes db !! Note.id n = Some r ∧
                 r_owner_id r = current_user ∧
                 n = Note_of_row (Note.id n) r.
Proof.
  eexists. split; [reflexivity|]. split; [|split].
  - apply StronglySorted_merge_sort; apply _.
  - unfold select_notes_by_owner. rewrite merge_sort_Permutation.
    apply NoDup_filter, NoDup_fmap_2; [apply _|]. apply NoDup_map_to_list.
  - intros n. rewrite select_notes_by_owner_elem. split.
    + intros (k & r & Hk & Ho & ->). by exists r.
    + intros (r & Hk & Ho & Hn). by exists (Note.id n), r.
Qed.

Lemma select_notes_by_owner_insert current_user (t : gmap Z notes_row) k r :
  t !! k = None → r_owner_id r = current_user →
  select_notes_by_owner current_user (<[k := r]> t) ≡ₚ
  Note_of_row k r :: select_notes_by_owner current_user t.
Proof.
  intros Hk Ho. unfold select_notes_by_owner.
  rewrite !merge_sort_Permutation, map_to_list_insert by done.
  rewrite fmap_cons, filter_cons_True by done. done.
Qed.

Lemma select_notes_by_owner_delete current_user (t : gmap Z notes_row) k r :
  t !! k = Some r → r_owner_id r = current_user →
  select_notes_by_owner current_user t ≡ₚ
  Note_of_row k r :: select_notes_by_owner current_user (delete k t).
Proof.
  intros Hk Ho. unfold select_notes_by_owner.
  rewrite !merge_sort_Permutation, <- (map_to_list_delete t k r) by done.
  rewrite fmap_cons, filter_cons_True by done. done.
Qed.

(** X8.  After [create_note] the caller's listing is the listing of before with
    the created note added. *)
Theorem create_note_then_get_notes now note current_user db created db' :
  create_note now note current_user db = (Return created, db') →
  ∃ before after,
    get_notes current_user db = (Return before, db) ∧
    get_notes current_user db' = (Return after, db') ∧
    after ≡ₚ created :: before.
Proof.
  rewrite create_note_eq. intros [= <- <-].
  eexists _, _. split; [reflexivity|]. split; [reflexivity|].
  cbn [notes]. apply select_notes_by_owner_insert; [|done].
  apply next_rowid_fresh.
Qed.

Lemma create_note_then_get_notes_witness :
  let db := (create_note "2024-01-01 00:00:00"
               (NoteCreate.Build "A" "x") 7 init_db).2 in
  let out := create_note "2024-01-01 00:00:03"
               (NoteCreate.Build "B" "y") 7 db in
  ∃ before after,
    (get_notes 7 db).1 = Return before ∧
    (get_notes 7 out.2).1 = Return after ∧
    List.length after = S (List.length before).
Proof.
  intros db out.
  destruct (create_note_then_get_notes "2024-01-01 00:00:03"
              (NoteCreate.Build "B" "y") 7 db
              (Note.Build 2 "B" "y" 7 "2024-01-01 00:00:03"
                 "2024-01-01 00:00:03") out.2)
    as (before & after & Hb & Ha & Hperm); [by vm_compute|].
  exists before, after.
  split; [by rewrite Hb|]. split; [by rewrite Ha|]. by rewrite Hperm.
Defined.

(** X9.  After a successful [delete_note] the caller's listing is the listing of
    before with the deleted note taken out. *)
Theorem delete_note_then_get_notes note_id current_user db msg db' :
  delete_note note_id current_user db = (Return msg, db') →
  ∃ deleted before after,
    Note.id deleted = note_id ∧
    get_notes current_user db = (Return before, db) ∧
    get_notes current_user db' = (Return after, db') ∧
    before ≡ₚ deleted :: after.
Proof.
  unfold delete_note, sql_delete_note.
  destruct (negb (binds _ _)); [done|].
  destruct (select_note _ _ _) as [r|] eqn:E; [|done].
  intros [= <- <-]. apply select_note_Some in E as [Hr Ho].
  exists (Note_of_row note_id r). eexists _, _.
  split; [done|]. split; [reflexivity|]. split; [reflexivity|].
  cbn [notes set_notes]. by apply select_notes_by_owner_delete.
Qed.

Lemma delete_note_then_get_notes_witness :
  let db := (create_note "2024-01-01 00:00:00"
               (NoteCreate.Build "A" "x") 7 init_db).2 in
  ∃ deleted before after,
    Note.id deleted = 1 ∧
    (get_notes 7 db).1 = Return before ∧
    (get_notes 7 (delete_note 1 7 db).2).1 = Return after ∧
    List.length before = S (List.length after).
Proof.
  intros db.
  destruct (delete_note_then_get_notes 1 7 db "Note deleted successfully"
              (delete_note 1 7 db).2)
    as (deleted & before & after & Hid & Hb & Ha & Hperm); [by vm_compute|].
  exists deleted, before, after. split; [done|].
  split; [by rewrite Hb|]. split; [by rewrite Ha|]. by rewrite Hperm.
Defined.

(** ** The notes of other owners *)

Lemma same_rows_of_others_refl current_user (t : gmap Z notes_row) :
  same_rows_of_others current_user t t.
Proof. by intros k r _. Qed.

(** Writing a row of [current_user] over no row or over a row of
    [current_user] leaves the rows of the others. *)
Lemma same_rows_of_others_insert current_user (t : gmap Z notes_row) k r :
  r_owner_id r = current_user →
  (∀ r0, t !! k = Some r0 → r_owner_id r0 = current_user) →
  same_rows_of_others current_user t (<[k := r]> t).
Proof.
  intros Ho Hold k' r' Hother. rewrite lookup_insert.
  destruct (decide (k = k')) as [<-|Hk]; [|done]. split.
  - intros [= <-]. done.
  - intros Hk. by destruct Hother, (Hold r').
Qed.

Lemma same_rows_of_others_delete current_user (t : gmap Z notes_row) k r :
  t !! k = Some r → r_owner_id r = current_user →
  same_rows_of_others current_user t (delete k t).
Proof.
  intros Hr Ho k' r' Hother. rewrite lookup_delete.
  destruct (decide (k = k')) as [<-|Hk]; [|done]. split; [done|].
  intros Hk. assert (r' = r) as -> by congruence. done.
Qed.

Lemma select_notes_by_owner_NoDup current_user (t : gmap Z notes_row) :
  NoDup (select_notes_by_owner current_user t).
Proof.
  unfold select_notes_by_owner. rewrite merge_sort_Permutation.
  apply NoDup_filter, NoDup_fmap_2; [apply _|]. apply NoDup_map_to_list.
Qed.

Lemma same_rows_of_others_listing current_user other
    (t t' : gmap Z notes_row) :
  other ≠ current_user → same_rows_of_others current_user t t' →
  select_notes_by_owner other t' ≡ₚ select_notes_by_owner other t.
Proof.
  intros Hne Hsame.
  apply NoDup_Permutation; [apply select_notes_by_owner_NoDup..|].
  intros n. rewrite !select_notes_by_owner_elem.
  split; intros (k & r & Hk & Ho & ->); exists k, r;
    (split; [apply (Hsame k r); [congruence|done] | done]).
Qed.

Lemma create_note_same_rows_of_others now note current_user db :
  same_rows_of_others current_user (notes db)
    (notes (create_note now note current_user db).2).
Proof.
  rewrite create_note_eq. cbn [snd notes].
  apply same_rows_of_others_insert; [done|].
  intros r0. by rewrite next_rowid_fresh.
Qed.

Lemma update_note_same_rows_of_others
    now note_id note_update current_user db :
  same_rows_of_others current_user (notes db)
    (notes (update_note now note_id note_update current_user db).2).
Proof.
  destruct (update_note now note_id note_update current_user db)
    as [[note|status d] db'] eqn:E.
  - apply update_note_success in E.
    destruct E as (r & Hr & Ho & _ & _ & ->). cbn [snd notes set_notes].
    apply same_rows_of_others_insert; [done|]. intros r0. congruence.
  - unfold update_note in E.
    destruct (update_note_check _ _ _ _) as [failure|] eqn:Hc.
    + injection E as _ <-. apply same_rows_of_others_refl.
    + apply update_note_check_pass in Hc as (r & Hr & Ho & Hm).
      assert (update_note now note_id note_update current_user db
              = (Return (Note_of_row note_id (updated_row now note_update r)),
                 set_notes (<[note_id := updated_row now note_update r]>
                              (notes db)) db)) as Hok
        by (apply update_note_success; exists r; done).
      unfold update_note in Hok.
      rewrite (proj2 (update_note_check_pass _ _ _ _)) in Hok by eauto.
      congruence.
Qed.

Lemma delete_note_same_rows_of_others note_id current_user db :
  same_rows_of_others current_user (notes db)
    (notes (delete_note note_id current_user db).2).
Proof.
  unfold delete_note, sql_delete_note.
  destruct (negb (binds _ _)); [apply same_rows_of_others_refl|].
  destruct (select_note _ _ _) as [r|] eqn:E.
  - apply select_note_Some in E as [Hr Ho]. cbn [snd notes set_notes].
    by eapply same_rows_of_others_delete.
  - apply same_rows_of_others_refl.
Qed.

(** X10.  Whatever a caller does with [create_note], [update_note] and
    [delete_note], the notes of every other owner stay as they are: the
    same rows under the same ids, and the same listing by [get_notes] (up
    to the order of notes with equal markers). *)
Theorem notes_of_other_owners_untouched
    now note note_id note_update current_user db db' other :
  db' = (create_note now note current_user db).2 ∨
  db' = (update_note now note_id note_update current_user db).2 ∨
  db' = (delete_note note_id current_user db).2 →
  other ≠ current_user →
  (∀ k r, r_owner_id r = other →
          notes db' !! k = Some r ↔ notes db !! k = Some r) ∧
  ∃ l l', get_notes other db = (Return l, db) ∧
          get_notes other db' = (Return l', db') ∧
          l' ≡ₚ l.
Proof.
  intros Hstep Hne.
  assert (same_rows_of_others current_user (notes db) (notes db')) as Hsame.
  { destruct Hstep as [-> | [-> | ->]];
      [apply create_note_same_rows_of_others
      |apply update_note_same_rows_of_others
      |apply delete_note_same_rows_of_others]. }
  split.
  - intros k r Ho. apply Hsame. congruence.
  - eexists _, _. split; [reflexivity|]. split; [reflexivity|].
    by eapply same_rows_of_others_listing.
Qed.

Lemma notes_of_other_owners_untouched_witness :
  let t0 := "2024-01-01 00:00:00" in
  let db0 := (create_note t0 (NoteCreate.Build "A" "x") 7 init_db).2 in
  let db := (create_note t0 (NoteCreate.Build "B" "w") 8 db0).2 in
  let db' := (delete_note 2 8 db).2 in
  notes db' !! 1 = Some (NotesRow "A" "x" 7 t0 t0).
Proof.
  intros t0 db0 db db'.
  destruct (notes_of_other_owners_untouched t0 (NoteCreate.Build "B" "w") 2
              (NoteUpdate.Build "B" "w" t0) 8 db db' 7) as [Hrows _].
  - right; right. reflexivity.
  - done.
  - apply Hrows; [reflexivity | by vm_compute].
Defined.

(** ** Rowids *)

Lemma max_rowid_le {A} (t : gmap Z A) s :
  0 ≤ s → (∀ k v, t !! k = Some v → k ≤ s) → max_rowid t ≤ s.
Proof.
  intros Hs Hle. unfold max_rowid.
  assert (Forall (λ k, k ≤ s) (map_to_list t).*1) as Hall.
  { apply Forall_forall. intros k Hk.
    apply list_elem_of_fmap in Hk as ([k' v] & -> & Hin).
    apply elem_of_map_to_list in Hin. by eapply Hle. }
  induction Hall as [|k l Hk _ IH]; cbn [foldr]; [done|].
  by apply Z.max_lub.
Qed.

Lemma next_rowid_in_sequence {A} (t : gmap Z A) s :
  0 ≤ s → (∀ k v, t !! k = Some v → 0 < k ≤ s) → next_rowid s t = s + 1.
Proof.
  intros Hs Hle. unfold next_rowid.
  rewrite Z.max_l; [done|]. apply max_rowid_le; [done|].
  intros k v Hk. by destruct (Hle k v).
Qed.

Lemma insert_rowids_in_sequence {A} (t : gmap Z A) s x :
  0 ≤ s → (∀ k v, t !! k = Some v → 0 < k ≤ s) →
  ∀ k v, <[next_rowid s t := x]> t !! k = Some v → 0 < k ≤ next_rowid s t.
Proof.
  intros Hs Hle k v. rewrite next_rowid_in_sequence by done.
  rewrite lookup_insert. destruct (decide (s + 1 = k)) as [<-|_]; [lia|].
  intros Hk. destruct (Hle k v Hk). lia.
Qed.

Lemma reachable_rowids_in_sequence bcrypt_hashpw db :
  reachable bcrypt_hashpw db → rowids_in_sequence db.
Proof.
  unfold rowids_in_sequence.
  induction 1 as [|salt now user db _ IH|now note cu db _ IH
                  |now note_id upd cu db _ IH|note_id cu db _ IH].
  - cbn. split; [|split; [|done]]; intros k r Hk;
      by rewrite lookup_empty in Hk.
  - destruct IH as (Hn & Hu & Hns & Hus).
    unfold register, insert_user.
    destruct (select_user_by_username _ _); [done|].
    cbn [snd notes users notes_seq users_seq].
    split; [done|]. split; [by apply insert_rowids_in_sequence|].
    split; [done|]. rewrite next_rowid_in_sequence by done. lia.
  - destruct IH as (Hn & Hu & Hns & Hus).
    rewrite create_note_eq. cbn [snd notes users notes_seq users_seq].
    split; [by apply insert_rowids_in_sequence|]. split; [done|].
    split; [|done]. rewrite next_rowid_in_sequence by done. lia.
  - destruct IH as (Hn & Hu & Hns & Hus).
    assert (∀ r0 x k r, notes db !! note_id = Some r0 →
              <[note_id := x]> (notes db) !! k = Some r →
              0 < k ≤ notes_seq db) as Hover.
    { intros r0 x k r Hr0. rewrite lookup_insert.
      destruct (decide (note_id = k)) as [<-|_]; [intros _|]; eauto. }
    unfold update_note.
    destruct (update_note_check _ _ _ _) as [failure|] eqn:Hc; [done|].
    apply update_note_check_pass in Hc as (r & Hr & Ho & _).
    unfold update_note_write.
    rewrite (sql_update_note_owned _ _ _ _ _ _ r) by done.
    cbn [snd notes users notes_seq users_seq set_notes].
    split; [|done]. intros k r'. by apply (Hover r).
  - destruct IH as (Hn & Hu & Hns & Hus).
    unfold delete_note, sql_delete_note.
    destruct (negb (binds _ _)); [done|].
    destruct (select_note _ _ _); [|done].
    cbn [snd notes users notes_seq users_seq set_notes].
    split; [|done]. intros k r' Hk.
    apply lookup_delete_Some in Hk as [_ Hk]. by eapply Hn.
Qed.





(** * Further properties of the session authenticator *)

Section MoreAuthProperties.

Variable jwt : PyJWT.
Variable bcrypt_hashpw : string → string → string.
Variable bcrypt_checkpw : string → string → bool.

Hypothesis bcrypt_checkpw_hashpw :
  ∀ password salt,
    bcrypt_checkpw password (bcrypt_hashpw password salt) = true.

(** ** Requests that fail *)

(** X13.  A request that raises leaves the database as it was: [register],
    [update_note] and [delete_note] write only when they succeed, and
    [login], [get_notes] and [get_note] never write. *)
Theorem failed_request_writes_nothing :
  (∀ salt now user db,
     is_success (register bcrypt_hashpw salt now user db).1 = false →
     (register bcrypt_hashpw salt now user db).2 = db) ∧
  (∀ now note_id note_update current_user db,
     is_success (update_note now note_id note_update current_user db).1
       = false →
     (update_note now note_id note_update current_user db).2 = db) ∧
  (∀ note_id current_user db,
     is_success (delete_note note_id current_user db).1 = false →
     (delete_note note_id current_user db).2 = db) ∧
  (∀ utcnow user db, (login jwt bcrypt_checkpw utcnow user db).2 = db) ∧
  (∀ current_user db, (get_notes current_user db).2 = db) ∧
  (∀ note_id current_user db, (get_note note_id current_user db).2 = db).
Proof.
  split; [|split; [|split; [|split; [|split]]]].
  - intros salt now user db. unfold register, insert_user.
    by destruct (select_user_by_username _ _).
  - intros now note_id note_update current_user db. unfold update_note.
    destruct (update_note_check _ _ _ _) as [failure|] eqn:Hc; [done|].
    apply update_note_check_pass in Hc as (r & Hr & Ho & _).
    unfold update_note_write, fetched_note.
    rewrite (sql_update_note_owned _ _ _ _ _ _ r) by done.
    cbn [fst snd notes set_notes]. by rewrite lookup_insert_eq.
  - intros note_id current_user db. unfold delete_note.
    destruct (negb (binds _ _)); [done|].
    by destruct (select_note _ _ _).
  - intros utcnow user db. unfold login.
    destruct (select_user_by_username _ _) as [[k r]|]; [|done].
    by destruct (negb _).
  - done.
  - intros note_id current_user db. unfold get_note.
    destruct (negb (binds _ _)); [done|].
    by destruct (select_note _ _ _).
Qed.

(** ** Accounts are permanent *)

Lemma register_keeps_users salt now user db k r :
  users db !! k = Some r →
  users (register bcrypt_hashpw salt now user db).2 !! k = Some r.
Proof.
  intros Hk. unfold register, insert_user.
  destruct (select_user_by_username _ _); [done|]. cbn [snd users].
  rewrite lookup_insert_ne; [done|].
  intros Heq. rewrite <- Heq in Hk. by rewrite next_rowid_fresh in Hk.
Qed.

Lemma note_handlers_keep_users :
  (∀ now note current_user db,
     users (create_note now note current_user db).2 = users db) ∧
  (∀ now note_id note_update current_user db,
     users (update_note now note_id note_update current_user db).2
     = users db) ∧
  (∀ note_id current_user db,
     users (delete_note note_id current_user db).2 = users db).
Proof.
  split; [|split].
  - done.
  - intros. unfold update_note. by destruct (update_note_check _ _ _ _).
  - intros. unfold delete_note. destruct (negb (binds _ _)); [done|].
    by destruct (select_note _ _ _).
Qed.

Lemma leads_to_users db db' :
  usernames_unique db → leads_to bcrypt_hashpw db db' →
  usernames_unique db' ∧
  ∀ k r, users db !! k = Some r → users db' !! k = Some r.
Proof.
  intros Huniq Hrun.
  destruct note_handlers_keep_users as (Hc & Hu & Hd).
  induction Hrun as [db|salt now user db db' _ IH|now note cu db db' _ IH
                     |now note_id upd cu db db' _ IH|note_id cu db db' _ IH];
    try destruct (IH Huniq) as [Huniq' Hkeep].
  - done.
  - split; [by apply register_usernames_unique|].
    intros k r Hk. by apply register_keeps_users, Hkeep.
  - split.
    + intros i j ri rj. rewrite Hc. apply Huniq'.
    + intros k r Hk. rewrite Hc. by apply Hkeep.
  - split.
    + intros i j ri rj. rewrite Hu. apply Huniq'.
    + intros k r Hk. rewrite Hu. by apply Hkeep.
  - split.
    + intros i j ri rj. rewrite Hd. apply Huniq'.
    + intros k r Hk. rewrite Hd. by apply Hkeep.
Qed.

(** X14.  No handler removes or changes a row of [users]: once [register] has
    succeeded for a username and password, [login] with them succeeds after
    any run of requests, and its token is accepted, within the 30 minutes,
    as the id [register] returned. *)
Theorem registered_user_keeps_logging_in
    salt now name password db user_id name' msg db1 db2 utcnow :
  usernames_unique db →
  register bcrypt_hashpw salt now (UserCreate.Build name password) db =
    (Return (user_id, name', msg), db1) →
  leads_to bcrypt_hashpw db1 db2 →
  ∃ access_token,
    login jwt bcrypt_checkpw utcnow (UserLogin.Build name password) db2 =
      (Return (access_token, "bearer"), db2) ∧
    ∀ utcnow',
      timegm utcnow' < timegm utcnow + ACCESS_TOKEN_EXPIRE_MINUTES * 60 →
      get_current_user jwt utcnow' access_token = Return (JInt user_id).
Proof.
  intros Huniq Hreg Hrun.
  assert (usernames_unique db1) as Huniq1.
  { replace db1 with
      (register bcrypt_hashpw salt now (UserCreate.Build name password) db).2
      by by rewrite Hreg.
    by apply register_usernames_unique. }
  assert (users db1 !! user_id =
          Some (UsersRow name (bcrypt_hashpw password salt) now)) as Hrow.
  { unfold register, insert_user in Hreg. cbn in Hreg.
    destruct (select_user_by_username _ _); [done|].
    injection Hreg as <- _ _ <-. cbn [users]. apply lookup_insert_eq. }
  destruct (leads_to_users db1 db2 Huniq1 Hrun) as [Huniq2 Hkeep].
  apply Hkeep in Hrow.
  eexists. split.
  - unfold login. cbn [UserLogin.username UserLogin.password].
    rewrite (select_user_by_username_unique db2 name user_id _ Huniq2 Hrow)
      by done.
    unfold verify_password. cbn [u_password_hash].
    by rewrite bcrypt_checkpw_hashpw.
  - intros utcnow' Hlt. rewrite login_token_window.
    change (ACCESS_TOKEN_EXPIRE_MINUTES * 60) with 1800 in Hlt.
    by rewrite decide_True.
Qed.

(** ** Acceptance of tokens *)


End MoreAuthProperties.

Lemma failed_request_writes_nothing_witness :
  (register example_hashpw "pepper" "2024-01-01 00:00:01"
     (UserCreate.Build "bob" "other")
     (register example_hashpw "salt" "2024-01-01 00:00:00"
        (UserCreate.Build "bob" "secret") init_db).2).2 =
  (register example_hashpw "salt" "2024-01-01 00:00:00"
     (UserCreate.Build "bob" "secret") init_db).2.
Proof.
  destruct (failed_request_writes_nothing example_jwt example_hashpw
              example_checkpw) as [Hreg _].
  apply Hreg. by vm_compute.
Defined.

Lemma registered_user_keeps_logging_in_witness :
  let reg := register example_hashpw "salt" "2024-01-01 00:00:00"
               (UserCreate.Build "bob" "secret") init_db in
  let db2 := (create_note "2024-01-01 00:00:04"
                (NoteCreate.Build "A" "x") 1 reg.2).2 in
  ∃ access_token,
    login example_jwt example_checkpw 1000000000
      (UserLogin.Build "bob" "secret") db2 =
      (Return (access_token, "bearer"), db2) ∧
    get_current_user example_jwt 1500000000 access_token = Return (JInt 1).
Proof.
  intros reg db2.
  destruct (registered_user_keeps_logging_in example_jwt example_hashpw
              example_checkpw example_checkpw_hashpw "salt"
              "2024-01-01 00:00:00" "bob" "secret" init_db 1 "bob"
              "User created" reg.2 db2 1000000000)
    as (access_token & Hlogin & Hverify).
  - intros i j ri rj Hi. by vm_compute in Hi.
  - by vm_compute.
  - apply leads_to_create_note, leads_to_refl.
  - exists access_token. split; [exact Hlogin|]. apply Hverify. by vm_compute.
Defined.

(** * Outcomes of the handlers *)



(** * Invariants of the database *)

(** X20.  In every state the handlers lead to from a fresh database the
    usernames are unique, the rowids of both tables are positive and not
    above their AUTOINCREMENT counters. *)
Theorem reachable_invariants bcrypt_hashpw db :
  reachable bcrypt_hashpw db →
  usernames_unique db ∧
  (∀ k r, notes db !! k = Some r → 0 < k ≤ notes_seq db) ∧
  (∀ k r, users db !! k = Some r → 0 < k ≤ users_seq db).
Proof.
  intros Hreach. split; [by eapply reachable_usernames_unique|].
  destruct (reachable_rowids_in_sequence _ _ Hreach) as (Hn & Hu & _).
  done.
Qed.

Lemma reachable_invariants_witness :
  let db := (register example_hashpw "pepper" "2024-01-01 00:00:01"
               (UserCreate.Build "alice" "other")
               (register example_hashpw "salt" "2024-01-01 00:00:00"
                  (UserCreate.Build "bob" "secret") init_db).2).2 in
  usernames_unique db.
Proof.
  intros db.
  apply (reachable_invariants example_hashpw db).
  apply reachable_register, reachable_register, reachable_init.
Defined.
